(** * EveryBanana: the generation request lifecycle of [App.tsx]

    A shallow embedding of the request orchestrator of [src/App.tsx]
    (the component state, [handleGenerateClick], [handleReset],
    [renderContent]) and of the aspect-ratio declarations of the types
    module, followed by the properties of the specification.

    Modelling conventions.
    - The eight [useState] cells of [App] are the fields of [State],
      under the names the source gives them.
    - A handler is an [Action]: started on the live component state it
      yields a [Task], which has either finished or is waiting on the
      Generation Client.  Each [setX] of the source is the action of the
      same name.
    - [handleGenerateClick] is created by [useCallback] and reads
      [prompt], [selectedStyle], [selectedAspectRatio], [isLoading] and
      [uploadedImage] from the render it was created in; that snapshot
      is its first argument.  Its writes go to the live state.
    - The Generation Client ([generate], module [services/geminiService])
      is outside the component.  The single [await] is the action
      [await_generate]: the task stops there with the call it makes, and
      resumes with the way the promise settled, a resolved image
      reference or a thrown value.  [run] plays a task against a client
      and logs the calls it receives.
    - [handleDownload] works on a small model of the document: the
      children of [document.body] with their identity, and the files the
      browser was asked to save.
    - [Page], [offered] and [step] put the handlers behind the controls
      the JSX of [App] renders, so that what a user can bring about is a
      sequence of steps from [initialPage]; a request in flight settles
      in a step of its own. *)

From Stdlib Require Import String Ascii List Bool Arith ZArith Lia.
From Stdlib Require Import DecimalString DecimalZ.
Import ListNotations.
Local Open Scope string_scope.

(** ** Aspect ratios (types module) *)

Module Types.

(** [export type AspectRatio = "1:1" | "3:4" | "4:3" | "9:16" | "16:9"] *)
Inductive AspectRatio : Type :=
| Ratio_1_1
| Ratio_3_4
| Ratio_4_3
| Ratio_9_16
| Ratio_16_9.

(** The string literal each member of the union is at run time. *)
Definition literal (r : AspectRatio) : string :=
  match r with
  | Ratio_1_1 => "1:1"
  | Ratio_3_4 => "3:4"
  | Ratio_4_3 => "4:3"
  | Ratio_9_16 => "9:16"
  | Ratio_16_9 => "16:9"
  end.

(** The inhabitants of the union type, in declaration order. *)
Definition AspectRatio_members : list AspectRatio :=
  [Ratio_1_1; Ratio_3_4; Ratio_4_3; Ratio_9_16; Ratio_16_9].

(** [export const ASPECT_RATIOS: AspectRatio[] = ["3:4", "9:16"]] *)
Definition ASPECT_RATIOS : list AspectRatio := [Ratio_3_4; Ratio_9_16].

Definition AspectRatio_eqb (a b : AspectRatio) : bool :=
  match a, b with
  | Ratio_1_1, Ratio_1_1
  | Ratio_3_4, Ratio_3_4
  | Ratio_4_3, Ratio_4_3
  | Ratio_9_16, Ratio_9_16
  | Ratio_16_9, Ratio_16_9 => true
  | _, _ => false
  end.

End Types.

Export Types.

(** ** JavaScript values the component handles *)

(** A browser [File]: the component only stores it, tests it against
    [null] and hands it to the client. *)
Record File : Type := mkFile {
  file_name : string;
  file_type : string;
  file_bytes : list Byte.byte
}.

(** What a rejected promise may carry.  [catch (err)] receives any value;
    the handler only asks [err instanceof Error] and, if so, reads
    [err.message]. *)
Inductive JsValue : Type :=
| JsUndefined
| JsNull
| JsBoolean (b : bool)
| JsNumber (n : Z)
| JsString (s : string)
| JsObject (fields : list (string * string))
| JsError (message : string).

Definition instanceof_Error (v : JsValue) : bool :=
  match v with
  | JsError _ => true
  | _ => false
  end.

(** [err.message] in the branch where [err instanceof Error] holds. *)
Definition message_of (v : JsValue) : string :=
  match v with
  | JsError m => m
  | _ => ""
  end.

(** Truthiness of a [string]: only the empty string is falsy. *)
Definition truthy (s : string) : bool :=
  match s with
  | EmptyString => false
  | String _ _ => true
  end.

(** Truthiness of a [T | null] whose non-null values are objects. *)
Definition present {T : Type} (o : option T) : bool :=
  match o with
  | Some _ => true
  | None => false
  end.

(** Truthiness of a [string | null]. *)
Definition truthy_or_null (o : option string) : bool :=
  match o with
  | Some s => truthy s
  | None => false
  end.

(** [String.prototype.toLowerCase], on strings of bytes: the letters
    [A]..[Z] move to [a]..[z], every other byte stays.  This is the
    JavaScript function on ASCII text, which the style labels are. *)
Definition toLowerCase_ascii (c : ascii) : ascii :=
  let n := nat_of_ascii c in
  if ((65 <=? n) && (n <=? 90))%nat then ascii_of_nat (n + 32) else c.

Fixpoint toLowerCase (s : string) : string :=
  match s with
  | EmptyString => EmptyString
  | String c rest => String (toLowerCase_ascii c) (toLowerCase rest)
  end.

(** ** Component state *)

Record State : Type := mkState {
  prompt : string;
  uploadedImage : option File;
  selectedStyle : string;
  selectedAspectRatio : AspectRatio;
  isLoading : bool;
  generatedImageUrl : option string;
  error : option string;
  isTextOnlyResult : bool
}.

(** The initial values of the [useState] cells. *)
Definition initialState : State :=
  {| prompt := "";
     uploadedImage := None;
     selectedStyle := "Fairy Tale";
     selectedAspectRatio := Ratio_3_4;
     isLoading := false;
     generatedImageUrl := None;
     error := None;
     isTextOnlyResult := true |}.

Definition styles : list string :=
  ["Fairy Tale"; "Cyberpunk"; "Fantasy"; "Animation"; "Retro"; "Steampunk"].

(** One invocation of [generate(finalPrompt, aspectRatio, image)]. *)
Record ClientCall : Type := mkCall {
  call_prompt : string;
  call_aspectRatio : AspectRatio;
  call_image : option File
}.

(** How the awaited promise settles. *)
Inductive Outcome : Type :=
| Resolved (imageUrl : string)
| Thrown (err : JsValue).

(** ** Handlers as tasks *)

(** A handler started on a state either runs to its end, or stops at
    [await generate(...)] with the state it has written so far; when the
    promise settles it resumes on the state that is live by then. *)
Inductive Task (A : Type) : Type :=
| Done (a : A) (s : State)
| Await (call : ClientCall) (s : State) (resume : Outcome -> State -> Task A).

Arguments Done {A} a s.
Arguments Await {A} call s resume.

Definition Action (A : Type) : Type := State -> Task A.

Definition ret {A : Type} (a : A) : Action A := fun s => Done a s.

Fixpoint bindT {A B : Type} (t : Task A) (k : A -> Action B) : Task B :=
  match t with
  | Done a s => k a s
  | Await call s resume => Await call s (fun o s' => bindT (resume o s') k)
  end.

Definition bind {A B : Type} (m : Action A) (k : A -> Action B) : Action B :=
  fun s => bindT (m s) k.

Declare Scope action_scope.
Delimit Scope action_scope with action.
Bind Scope action_scope with Action.

Notation "x <- m ;; k" := (bind m (fun x => k))
  (at level 61, m at next level, right associativity) : action_scope.
Notation "m ;; k" := (bind m (fun _ => k))
  (at level 61, right associativity) : action_scope.

Local Open Scope action_scope.

Definition modify (f : State -> State) : Action unit :=
  fun s => Done tt (f s).

Definition setPrompt (v : string) : Action unit :=
  modify (fun s =>
    mkState v (uploadedImage s) (selectedStyle s) (selectedAspectRatio s)
            (isLoading s) (generatedImageUrl s) (error s) (isTextOnlyResult s)).

Definition setUploadedImage (v : option File) : Action unit :=
  modify (fun s =>
    mkState (prompt s) v (selectedStyle s) (selectedAspectRatio s)
            (isLoading s) (generatedImageUrl s) (error s) (isTextOnlyResult s)).

Definition setSelectedStyle (v : string) : Action unit :=
  modify (fun s =>
    mkState (prompt s) (uploadedImage s) v (selectedAspectRatio s)
            (isLoading s) (generatedImageUrl s) (error s) (isTextOnlyResult s)).

Definition setSelectedAspectRatio (v : AspectRatio) : Action unit :=
  modify (fun s =>
    mkState (prompt s) (uploadedImage s) (selectedStyle s) v
            (isLoading s) (generatedImageUrl s) (error s) (isTextOnlyResult s)).

Definition setIsLoading (v : bool) : Action unit :=
  modify (fun s =>
    mkState (prompt s) (uploadedImage s) (selectedStyle s) (selectedAspectRatio s)
            v (generatedImageUrl s) (error s) (isTextOnlyResult s)).

Definition setGeneratedImageUrl (v : option string) : Action unit :=
  modify (fun s =>
    mkState (prompt s) (uploadedImage s) (selectedStyle s) (selectedAspectRatio s)
            (isLoading s) v (error s) (isTextOnlyResult s)).

Definition setError (v : option string) : Action unit :=
  modify (fun s =>
    mkState (prompt s) (uploadedImage s) (selectedStyle s) (selectedAspectRatio s)
            (isLoading s) (generatedImageUrl s) v (isTextOnlyResult s)).

Definition setIsTextOnlyResult (v : bool) : Action unit :=
  modify (fun s =>
    mkState (prompt s) (uploadedImage s) (selectedStyle s) (selectedAspectRatio s)
            (isLoading s) (generatedImageUrl s) (error s) v).

(** [await generate(p, r, img)] inside [try]: the handler stops with the
    call, and resumes with the way the promise settled. *)
Definition await_generate (p : string) (r : AspectRatio) (img : option File)
  : Action Outcome :=
  fun s => Await (mkCall p r img) s (fun settled s' => Done settled s').

(** ** The orchestrator *)

(** [const currentAspectRatio = newAspectRatio || selectedAspectRatio]:
    an argument that is given is one of the five literals, none of which
    is the empty string, so it is truthy. *)
Definition currentAspectRatio (c : State) (newAspectRatio : option AspectRatio)
  : AspectRatio :=
  match newAspectRatio with
  | Some r => r
  | None => selectedAspectRatio c
  end.

(** [const finalPrompt = `${prompt}, in a ${selectedStyle.toLowerCase()} style.`] *)
Definition finalPrompt (c : State) : string :=
  prompt c ++ ", in a " ++ toLowerCase (selectedStyle c) ++ " style.".

(** [handleGenerateClick], with [c] the render the callback closes over
    and [newAspectRatio] its optional argument. *)
Definition handleGenerateClick (c : State) (newAspectRatio : option AspectRatio)
  : Action unit :=
  if negb (truthy (prompt c)) && negb (present (uploadedImage c)) then
    setError (Some "Please write a prompt or upload an image.")
  else if isLoading c then
    ret tt
  else
    setIsLoading true ;;
    setError None ;;
    setGeneratedImageUrl None ;;
    match newAspectRatio with
    | Some r => setSelectedAspectRatio r
    | None => ret tt
    end ;;
    setIsTextOnlyResult (negb (present (uploadedImage c))) ;;
    settled <- await_generate (finalPrompt c)
                              (currentAspectRatio c newAspectRatio)
                              (uploadedImage c) ;;
    match settled with
    | Resolved imageUrl =>
        setGeneratedImageUrl (Some imageUrl)
    | Thrown err =>
        setError (Some (if instanceof_Error err then message_of err
                        else "An unknown error occurred.")) ;;
        setGeneratedImageUrl None
    end ;;
    setIsLoading false.

(** [handleReset] *)
Definition handleReset : Action unit :=
  setGeneratedImageUrl None ;;
  setError None.

(** ** Running a handler against a client *)

(** The component state together with the calls the Generation Client
    has received, oldest first. *)
Record World : Type := mkWorld {
  ui : State;
  calls : list ClientCall
}.

Section Client.

(** The Generation Client, as the remote service behaves. *)
Variable generate : string -> AspectRatio -> option File -> Outcome.

Definition settle (call : ClientCall) : Outcome :=
  generate (call_prompt call) (call_aspectRatio call) (call_image call).

(** Runs a task to its end with nothing else happening while it
    waits: every input of the page is disabled while [isLoading]. *)
Fixpoint run {A : Type} (t : Task A) (log : list ClientCall) : World :=
  match t with
  | Done _ s => mkWorld s log
  | Await call s resume => run (resume (settle call) s) (log ++ [call])
  end.

(** An event handler started on the live state. *)
Definition perform (h : Action unit) (w : World) : World :=
  run (h (ui w)) (calls w).

(** A click delivered to the current render: the callback closes over
    the state that is live when the event arrives. *)
Definition submit (newAspectRatio : option AspectRatio) (w : World) : World :=
  perform (handleGenerateClick (ui w) newAspectRatio) w.

Definition reset (w : World) : World := perform handleReset w.

End Client.

(** The calls a task makes before it first stops or ends: none or one. *)
Definition pendingCall {A : Type} (t : Task A) : option ClientCall :=
  match t with
  | Done _ _ => None
  | Await call _ _ => Some call
  end.

(** The state a task has written when it first stops or ends. *)
Definition stateOf {A : Type} (t : Task A) : State :=
  match t with
  | Done _ s => s
  | Await _ s _ => s
  end.

(** ** What is rendered *)

(** The four things [renderContent] returns. *)
Inductive Content : Type :=
| Spinner
| FailureCard (message : string)
| ResultCard (src : string) (aspectRatioRetry : bool)
| Nothing.

Definition renderContent (s : State) : Content :=
  if isLoading s then Spinner
  else if truthy_or_null (error s) then
    FailureCard (match error s with Some e => e | None => "" end)
  else if truthy_or_null (generatedImageUrl s) then
    ResultCard (match generatedImageUrl s with Some u => u | None => "" end)
               (isTextOnlyResult s)
  else Nothing.

(** The aspect-ratio selector that calls [handleGenerateClick(ratio)] is
    on screen. *)
Definition retryOffered (s : State) : bool :=
  match renderContent s with
  | ResultCard _ offered => offered
  | _ => false
  end.

(** [disabled] of the Generate button. *)
Definition generateDisabled (s : State) : bool :=
  isLoading s || (negb (truthy (prompt s)) && negb (present (uploadedImage s))).

(** [(isLoading || error || generatedImageUrl) && ...]: the block that
    holds [renderContent()] is in the page. *)
Definition resultBlockShown (s : State) : bool :=
  isLoading s || truthy_or_null (error s) || truthy_or_null (generatedImageUrl s).

(** ** The download affordance *)

(** The part of the DOM [handleDownload] works on: the children of
    [document.body], each node with its identity, and the files the
    browser has been asked to save (source, suggested name). *)
Record Element : Type := mkElement {
  node : nat;
  tagName : string;
  href : string;
  download : string
}.

Record Document : Type := mkDocument {
  body : list Element;
  nextNode : nat;
  saved : list (string * string)
}.

Definition sameNode (a b : Element) : bool := Nat.eqb (node a) (node b).

(** [document.createElement(tag)]: a new node, not yet in the tree. *)
Definition createElement (tag : string) (d : Document) : Element * Document :=
  (mkElement (nextNode d) tag "" "",
   mkDocument (body d) (S (nextNode d)) (saved d)).

(** [document.body.appendChild(e)]: [e] becomes the last child; a node
    that is already a child moves there. *)
Definition appendChild (e : Element) (d : Document) : Document :=
  mkDocument (filter (fun x => negb (sameNode x e)) (body d) ++ [e])
             (nextNode d) (saved d).

(** [e.click()] on an anchor that carries a [download] name asks the
    browser to save [href] under that name. *)
Definition click (e : Element) (d : Document) : Document :=
  if (tagName e =? "a")%string && truthy (download e) then
    mkDocument (body d) (nextNode d) (saved d ++ [(href e, download e)])
  else d.

(** [document.body.removeChild(e)]: raises [NotFoundError] ([None]) when
    [e] is not a child. *)
Definition removeChild (e : Element) (d : Document) : option Document :=
  if existsb (fun x => sameNode x e) (body d) then
    Some (mkDocument (filter (fun x => negb (sameNode x e)) (body d))
                     (nextNode d) (saved d))
  else None.

(** [`${n}`] for an integral number below 1e21, as [Date.now()] is. *)
Definition numberToString (n : Z) : string :=
  NilZero.string_of_int (Z.to_int n).

(** [handleDownload], with [c] the render it closes over and [now] what
    [Date.now()] returns. *)
Definition handleDownload (c : State) (now : Z) (d : Document) : option Document :=
  if negb (truthy_or_null (generatedImageUrl c)) then Some d
  else
    let (created, d1) := createElement "a" d in
    let link :=
      mkElement (node created) (tagName created)
                (match generatedImageUrl c with Some u => u | None => "" end)
                ("everybanana-" ++ numberToString now ++ ".jpg") in
    let d2 := appendChild link d1 in
    let d3 := click link d2 in
    removeChild link d3.

(** ** The page as the user drives it *)

(** What the user can do on the page rendered by [App]. *)
Inductive Event : Type :=
| ChangePrompt (value : string)
| UploadImage (file : option File)
| SelectStyle (concept : string)
| ClickGenerate
| ClickTryAgain
| SelectRatio (ratio : AspectRatio)
| ClickDownload (now : Z)
| ClickCreateNew.

Definition showsFailure (s : State) : bool :=
  resultBlockShown s &&
  match renderContent s with FailureCard _ => true | _ => false end.

Definition showsResult (s : State) : bool :=
  resultBlockShown s &&
  match renderContent s with ResultCard _ _ => true | _ => false end.

(** Whether the render of [s] lets the event happen.  The textarea and
    the Generate button carry the native [disabled]; the three buttons
    and the ratio selector of [renderContent] exist only in the branch
    that returns them.  [ImageUploader] and [ConceptSelector] are other
    modules that receive [isDisabled]: nothing is assumed of what they do
    with it, their callbacks may come at any time. *)
Definition offered (s : State) (e : Event) : bool :=
  match e with
  | ChangePrompt _ => negb (isLoading s)
  | UploadImage _ => true
  | SelectStyle _ => true
  | ClickGenerate => negb (generateDisabled s)
  | ClickTryAgain => showsFailure s
  | SelectRatio _ => showsResult s && isTextOnlyResult s
  | ClickDownload _ => showsResult s
  | ClickCreateNew => showsResult s
  end.

(** The callback each event is wired to, created in the render [c]. *)
Definition handlerOf (c : State) (e : Event) : Action unit :=
  match e with
  | ChangePrompt value => setPrompt value
  | UploadImage file => setUploadedImage file
  | SelectStyle concept => setSelectedStyle concept
  | ClickGenerate => handleGenerateClick c None
  | ClickTryAgain => setError None
  | SelectRatio ratio => handleGenerateClick c (Some ratio)
  | ClickDownload _ => ret tt
  | ClickCreateNew => handleReset
  end.

(** The page between two events: the live state, the requests awaiting
    the Generation Client with what each will do when it settles, every
    call sent so far, and the document. *)
Record Page : Type := mkPage {
  live : State;
  inflight : list (ClientCall * (Outcome -> State -> Task unit));
  sent : list ClientCall;
  document : Document
}.

Definition initialPage : Page :=
  mkPage initialState [] [] (mkDocument [] 0 []).

(** Takes in what a handler did until it finished or stopped. *)
Definition absorb (t : Task unit) (p : Page) : Page :=
  match t with
  | Done _ s => mkPage s (inflight p) (sent p) (document p)
  | Await call s resume =>
      mkPage s (inflight p ++ [(call, resume)]) (sent p ++ [call]) (document p)
  end.

Fixpoint dropNth {T : Type} (i : nat) (l : list T) : list T :=
  match l, i with
  | [], _ => []
  | _ :: rest, O => rest
  | x :: rest, S j => x :: dropNth j rest
  end.

(** What happens next: the user does something the render offers, or
    one of the requests in flight settles. *)
Inductive Label : Type :=
| User (e : Event)
| Settle (i : nat) (settled : Outcome).

Definition step (p : Page) (l : Label) : option Page :=
  match l with
  | User e =>
      if offered (live p) e then
        match e with
        | ClickDownload now =>
            match handleDownload (live p) now (document p) with
            | Some d => Some (mkPage (live p) (inflight p) (sent p) d)
            | None => None
            end
        | _ => Some (absorb (handlerOf (live p) e (live p)) p)
        end
      else None
  | Settle i settled =>
      match nth_error (inflight p) i with
      | Some (_, resume) =>
          Some (absorb (resume settled (live p))
                       (mkPage (live p) (dropNth i (inflight p)) (sent p)
                               (document p)))
      | None => None
      end
  end.

Fixpoint steps (p : Page) (ls : list Label) : option Page :=
  match ls with
  | [] => Some p
  | l :: rest =>
      match step p l with
      | Some p' => steps p' rest
      | None => None
      end
  end.

(** The pages a user can bring about. *)
Definition reachable (p : Page) : Prop :=
  exists ls, steps initialPage ls = Some p.

(** * Properties *)

(** ** Strings and truthiness *)

Lemma truthy_false_iff (s : string) : truthy s = false <-> s = "".
Proof.
  destruct s as [|c rest]; simpl; split; intro H; congruence.
Qed.

Lemma truthy_true_iff (s : string) : truthy s = true <-> s <> "".
Proof.
  destruct s as [|c rest]; simpl; split; intro H; congruence.
Qed.

Lemma present_false_iff {T : Type} (o : option T) : present o = false <-> o = None.
Proof.
  destruct o; simpl; split; intro H; congruence.
Qed.

Lemma present_true_iff {T : Type} (o : option T) : present o = true <-> o <> None.
Proof.
  destruct o; simpl; split; intro H; congruence.
Qed.

(** Every member of the union type is a truthy string, which is what
    makes [newAspectRatio || selectedAspectRatio] pick the argument
    whenever one is given. *)
Lemma literal_truthy (r : AspectRatio) : truthy (literal r) = true.
Proof. destruct r; reflexivity. Qed.

Lemma literal_injective (a b : AspectRatio) : literal a = literal b -> a = b.
Proof. destruct a, b; simpl; intro H; congruence. Qed.

Lemma AspectRatio_eqb_spec (a b : AspectRatio) :
  reflect (a = b) (AspectRatio_eqb a b).
Proof. destruct a, b; simpl; constructor; congruence. Qed.

Lemma AspectRatio_members_complete (r : AspectRatio) : In r AspectRatio_members.
Proof. destruct r; simpl; auto 6. Qed.

Lemma toLowerCase_length (s : string) :
  String.length (toLowerCase s) = String.length s.
Proof.
  induction s as [|c rest IH]; simpl; [reflexivity | now rewrite IH].
Qed.

Lemma toLowerCase_ascii_idempotent (c : ascii) :
  toLowerCase_ascii (toLowerCase_ascii c) = toLowerCase_ascii c.
Proof.
  destruct c as [[] [] [] [] [] [] [] []]; reflexivity.
Qed.

Lemma toLowerCase_idempotent (s : string) :
  toLowerCase (toLowerCase s) = toLowerCase s.
Proof.
  induction s as [|c rest IH]; simpl.
  - reflexivity.
  - now rewrite toLowerCase_ascii_idempotent, IH.
Qed.

Lemma toLowerCase_app (s t : string) :
  toLowerCase (s ++ t) = toLowerCase s ++ toLowerCase t.
Proof.
  induction s as [|c rest IH]; simpl; [reflexivity | now rewrite IH].
Qed.

Example styles_lowered :
  map toLowerCase styles =
  ["fairy tale"; "cyberpunk"; "fantasy"; "animation"; "retro"; "steampunk"].
Proof. reflexivity. Qed.

(** ** Tasks *)

Lemma bindT_Done {A B : Type} (a : A) (s : State) (k : A -> Action B) :
  bindT (Done a s) k = k a s.
Proof. reflexivity. Qed.

Lemma bind_ret_l {A B : Type} (a : A) (k : A -> Action B) (s : State) :
  bind (ret a) k s = k a s.
Proof. reflexivity. Qed.

Lemma pendingCall_bindT_Await {A B : Type} call s resume (k : A -> Action B) :
  pendingCall (bindT (Await call s resume) k) = Some call.
Proof. reflexivity. Qed.

(** A task that has finished makes no call, whatever the client. *)
Lemma run_Done {A : Type} generate (a : A) (s : State) (log : list ClientCall) :
  run generate (Done a s) log = mkWorld s log.
Proof. reflexivity. Qed.

(** Running never forgets a call: the log only grows at its end. *)
Lemma run_log_prefix {A : Type} generate (t : Task A) :
  forall log, exists more, calls (run generate t log) = (log ++ more)%list.
Proof.
  induction t as [a s | call s resume IH]; intro log; simpl.
  - exists []. now rewrite app_nil_r.
  - destruct (IH (settle generate call) s (log ++ [call])%list) as [more E].
    exists (call :: more). rewrite E, <- app_assoc. reflexivity.
Qed.

(** ** The three ways [handleGenerateClick] goes *)

(** The guard of line 28, as a proposition on the snapshot. *)
Definition blank (c : State) : Prop := prompt c = "" /\ uploadedImage c = None.

Definition filled (c : State) : Prop := prompt c <> "" \/ uploadedImage c <> None.

Lemma blank_guard (c : State) :
  blank c <-> negb (truthy (prompt c)) && negb (present (uploadedImage c)) = true.
Proof.
  unfold blank. rewrite andb_true_iff, !negb_true_iff.
  now rewrite truthy_false_iff, present_false_iff.
Qed.

Lemma filled_guard (c : State) :
  filled c <-> negb (truthy (prompt c)) && negb (present (uploadedImage c)) = false.
Proof.
  unfold filled. rewrite andb_false_iff, !negb_false_iff.
  now rewrite truthy_true_iff, present_true_iff.
Qed.

Lemma blank_or_filled (c : State) : blank c \/ filled c.
Proof.
  destruct (negb (truthy (prompt c)) && negb (present (uploadedImage c))) eqn:G.
  - left. now apply blank_guard.
  - right. now apply filled_guard.
Qed.

Lemma blank_not_filled (c : State) : blank c -> ~ filled c.
Proof.
  intros Hb Hf. apply blank_guard in Hb. apply filled_guard in Hf. congruence.
Qed.

(** Validation comes first: the snapshot is blank. *)
Lemma handleGenerateClick_blank (c : State) (r : option AspectRatio) (s : State) :
  blank c ->
  handleGenerateClick c r s =
  Done tt (mkState (prompt s) (uploadedImage s) (selectedStyle s)
                   (selectedAspectRatio s) (isLoading s) (generatedImageUrl s)
                   (Some "Please write a prompt or upload an image.")
                   (isTextOnlyResult s)).
Proof.
  intro Hb. apply blank_guard in Hb.
  unfold handleGenerateClick. rewrite Hb. reflexivity.
Qed.

(** The debounce: the snapshot is filled and loading. *)
Lemma handleGenerateClick_loading (c : State) (r : option AspectRatio) (s : State) :
  filled c -> isLoading c = true ->
  handleGenerateClick c r s = Done tt s.
Proof.
  intros Hf Hl. apply filled_guard in Hf.
  unfold handleGenerateClick. rewrite Hf, Hl. reflexivity.
Qed.

(** The state written before the [await]. *)
Definition loadingState (c : State) (r : option AspectRatio) (s : State) : State :=
  mkState (prompt s) (uploadedImage s) (selectedStyle s)
          (match r with Some a => a | None => selectedAspectRatio s end)
          true None None (negb (present (uploadedImage c))).

(** The state written once the promise has settled, from the state
    [s'] that is live by then. *)
Definition settledState (settled : Outcome) (s' : State) : State :=
  mkState (prompt s') (uploadedImage s') (selectedStyle s') (selectedAspectRatio s')
          false
          (match settled with Resolved u => Some u | Thrown _ => None end)
          (match settled with
           | Resolved _ => error s'
           | Thrown e => Some (if instanceof_Error e then message_of e
                               else "An unknown error occurred.")
           end)
          (isTextOnlyResult s').

(** Acceptance: the snapshot is filled and not loading.  The task stops
    at the one call, in the loading state, and whatever the promise
    brings it then finishes. *)
Lemma handleGenerateClick_accepted (c : State) (r : option AspectRatio) (s : State) :
  filled c -> isLoading c = false ->
  exists resume,
    handleGenerateClick c r s =
    Await (mkCall (finalPrompt c) (currentAspectRatio c r) (uploadedImage c))
          (loadingState c r s) resume /\
    forall settled s', resume settled s' = Done tt (settledState settled s').
Proof.
  intros Hf Hl. apply filled_guard in Hf.
  unfold handleGenerateClick. rewrite Hf, Hl.
  eexists. split.
  - destruct r as [a|]; reflexivity.
  - intros settled s'. destruct settled as [u|e]; reflexivity.
Qed.

(** ** The same three ways, played against a client *)

Section Submit.

Variable generate : string -> AspectRatio -> option File -> Outcome.

Lemma submit_blank (r : option AspectRatio) (w : World) :
  blank (ui w) ->
  submit generate r w =
  mkWorld (mkState (prompt (ui w)) (uploadedImage (ui w)) (selectedStyle (ui w))
                   (selectedAspectRatio (ui w)) (isLoading (ui w))
                   (generatedImageUrl (ui w))
                   (Some "Please write a prompt or upload an image.")
                   (isTextOnlyResult (ui w)))
          (calls w).
Proof.
  intro Hb. unfold submit, perform.
  now rewrite (handleGenerateClick_blank _ r (ui w) Hb).
Qed.

Lemma submit_loading (r : option AspectRatio) (w : World) :
  filled (ui w) -> isLoading (ui w) = true ->
  submit generate r w = w.
Proof.
  intros Hf Hl. unfold submit, perform.
  rewrite (handleGenerateClick_loading _ r (ui w) Hf Hl).
  destruct w; reflexivity.
Qed.

Lemma submit_accepted (r : option AspectRatio) (w : World) :
  filled (ui w) -> isLoading (ui w) = false ->
  submit generate r w =
  mkWorld (settledState
             (generate (finalPrompt (ui w)) (currentAspectRatio (ui w) r)
                       (uploadedImage (ui w)))
             (loadingState (ui w) r (ui w)))
          (calls w ++ [mkCall (finalPrompt (ui w)) (currentAspectRatio (ui w) r)
                              (uploadedImage (ui w))])%list.
Proof.
  intros Hf Hl. unfold submit, perform.
  destruct (handleGenerateClick_accepted (ui w) r (ui w) Hf Hl) as (k & E & Hk).
  rewrite E. simpl. rewrite Hk. reflexivity.
Qed.

(** Whatever the state, one click makes at most one call. *)
Lemma submit_at_most_one_call (r : option AspectRatio) (w : World) :
  calls (submit generate r w) = calls w \/
  exists call, calls (submit generate r w) = (calls w ++ [call])%list.
Proof.
  destruct (blank_or_filled (ui w)) as [Hb|Hf].
  - left. now rewrite submit_blank.
  - destruct (isLoading (ui w)) eqn:Hl.
    + left. now rewrite submit_loading.
    + right. rewrite submit_accepted by assumption. eexists. reflexivity.
Qed.

(** ... and always leaves the prompt, the image and the style alone. *)
Lemma submit_keeps_inputs (r : option AspectRatio) (w : World) :
  prompt (ui (submit generate r w)) = prompt (ui w) /\
  uploadedImage (ui (submit generate r w)) = uploadedImage (ui w) /\
  selectedStyle (ui (submit generate r w)) = selectedStyle (ui w).
Proof.
  destruct (blank_or_filled (ui w)) as [Hb|Hf].
  - rewrite submit_blank by assumption. simpl. auto.
  - destruct (isLoading (ui w)) eqn:Hl.
    + rewrite submit_loading by assumption. auto.
    + rewrite submit_accepted by assumption. simpl. auto.
Qed.

(** No click ever leaves the page spinning once the promise has
    settled, unless it was already spinning. *)
Lemma submit_not_loading (r : option AspectRatio) (w : World) :
  isLoading (ui w) = false -> isLoading (ui (submit generate r w)) = false.
Proof.
  intro Hl. destruct (blank_or_filled (ui w)) as [Hb|Hf].
  - rewrite submit_blank by assumption. exact Hl.
  - rewrite submit_accepted by assumption. reflexivity.
Qed.

End Submit.

(** While the first request is in flight the page shows the state written
    before the [await]: it is loading, and it is as filled as the
    snapshot was, so a second click there finishes at once, unchanged. *)
Lemma second_click_while_pending (s : State) (r r' : option AspectRatio) :
  filled s -> isLoading s = false ->
  let pending := stateOf (handleGenerateClick s r s) in
  isLoading pending = true /\
  renderContent pending = Spinner /\
  generateDisabled pending = true /\
  handleGenerateClick pending r' pending = Done tt pending.
Proof.
  intros Hf Hl.
  destruct (handleGenerateClick_accepted s r s Hf Hl) as (k & E & _).
  rewrite E. simpl. repeat split.
  apply handleGenerateClick_loading; [exact Hf | reflexivity].
Qed.

(** ** What [renderContent] shows *)

Lemma renderContent_retry (s : State) :
  retryOffered s = true <->
  isLoading s = false /\ truthy_or_null (error s) = false /\
  truthy_or_null (generatedImageUrl s) = true /\ isTextOnlyResult s = true.
Proof.
  unfold retryOffered, renderContent.
  destruct (isLoading s), (truthy_or_null (error s)),
    (truthy_or_null (generatedImageUrl s)), (isTextOnlyResult s);
    simpl; split; intro H; try discriminate; try tauto;
    repeat match goal with H : _ /\ _ |- _ => destruct H end; discriminate.
Qed.

Lemma renderContent_after_reset generate (w : World) :
  renderContent (ui (reset generate w)) =
  if isLoading (ui w) then Spinner else Nothing.
Proof.
  unfold reset, perform, renderContent. simpl. destruct (isLoading (ui w)); reflexivity.
Qed.

(** A request without an image that resolves to a non-empty reference
    puts the aspect-ratio selector on screen. *)
Lemma text_only_success_offers_retry generate (r : option AspectRatio) (w : World)
      (url : string) :
  prompt (ui w) <> "" -> uploadedImage (ui w) = None -> isLoading (ui w) = false ->
  generate (finalPrompt (ui w)) (currentAspectRatio (ui w) r) None = Resolved url ->
  url <> "" ->
  renderContent (ui (submit generate r w)) = ResultCard url true.
Proof.
  intros Hp Hi Hl Hg Hu.
  rewrite submit_accepted by (try left; assumption).
  unfold renderContent, settledState, loadingState. simpl.
  rewrite Hi, Hg. simpl.
  apply truthy_true_iff in Hu. rewrite Hu. reflexivity.
Qed.

(** ** Sample pages and clients *)

Definition referenceUrl : string := "data:image/png;base64,iVBORw0KGgo=".

Definition resolving (url : string) : string -> AspectRatio -> option File -> Outcome :=
  fun _ _ _ => Resolved url.

Definition throwing (err : JsValue) : string -> AspectRatio -> option File -> Outcome :=
  fun _ _ _ => Thrown err.

Definition freshPage : World := mkWorld initialState [].

Definition photo : File :=
  mkFile "cat.png" "image/png" [Byte.x89; Byte.x50; Byte.x4e; Byte.x47].

(** The user types the prompt of the specification's example. *)
Definition catPage : World :=
  perform (resolving referenceUrl) (setPrompt "A cat wearing a space helmet") freshPage.

(** ... and also attaches an image. *)
Definition catPhotoPage : World :=
  perform (resolving referenceUrl) (setUploadedImage (Some photo)) catPage.

(** The example request has succeeded. *)
Definition catResultPage : World := submit (resolving referenceUrl) None catPage.

(** ... and the user has then emptied the prompt box, which is enabled
    again once loading is over. *)
Definition clearedResultPage : World :=
  perform (resolving referenceUrl) (setPrompt "") catResultPage.

(** A snapshot that is loading with nothing to submit. *)
Definition loadingBlankPage : World :=
  mkWorld (mkState "" None "Fairy Tale" Ratio_3_4 true None None true) [].

(** A snapshot that is loading with the example prompt. *)
Definition loadingCatPage : World :=
  mkWorld (mkState "A cat wearing a space helmet" None "Fairy Tale" Ratio_3_4
                   true None None true)
          [mkCall "A cat wearing a space helmet, in a fairy tale style." Ratio_3_4 None].

(** The example of the specification, end to end. *)
Example cat_example :
  catResultPage =
  mkWorld (mkState "A cat wearing a space helmet" None "Fairy Tale" Ratio_3_4
                   false (Some referenceUrl) None true)
          [mkCall "A cat wearing a space helmet, in a fairy tale style." Ratio_3_4 None].
Proof. reflexivity. Qed.

Example cat_example_offers_retry : retryOffered (ui catResultPage) = true.
Proof. reflexivity. Qed.

Example clearedResultPage_offers_retry : retryOffered (ui clearedResultPage) = true.
Proof. reflexivity. Qed.

(** ** The claims of the specification *)

(** C1. A submission whose prompt text is empty and which has no
    uploaded image is rejected locally: the error state becomes the
    validation message and the Generation Client is not invoked, whatever
    the rest of the state is (the loading flag included). *)
Theorem blank_submission_rejected
        (generate : string -> AspectRatio -> option File -> Outcome)
        (r : option AspectRatio) (w : World) :
  prompt (ui w) = "" -> uploadedImage (ui w) = None ->
  error (ui (submit generate r w)) =
    Some "Please write a prompt or upload an image." /\
  calls (submit generate r w) = calls w /\
  pendingCall (handleGenerateClick (ui w) r (ui w)) = None.
Proof.
  intros Hp Hi. assert (Hb : blank (ui w)) by (split; assumption).
  rewrite submit_blank by exact Hb.
  rewrite (handleGenerateClick_blank _ r (ui w) Hb).
  simpl. auto.
Qed.

Lemma blank_submission_rejected_witness :
  error (ui (submit (resolving referenceUrl) (Some Ratio_9_16) loadingBlankPage)) =
    Some "Please write a prompt or upload an image." /\
  calls (submit (resolving referenceUrl) (Some Ratio_9_16) loadingBlankPage) =
    calls loadingBlankPage /\
  pendingCall (handleGenerateClick (ui loadingBlankPage) (Some Ratio_9_16)
                                   (ui loadingBlankPage)) = None.
Proof.
  apply (blank_submission_rejected (resolving referenceUrl) (Some Ratio_9_16)
                                   loadingBlankPage); reflexivity.
Defined.

(** C2, as the code has it.  A submission made while the loading flag is
    set never invokes the Generation Client.  When the prompt is
    non-empty or an image is uploaded it is dropped silently, every
    component of the state unchanged.  When the prompt is empty and no
    image is uploaded the validation of C1 comes first: the error state
    becomes the validation message and nothing else changes. *)
Theorem duplicate_submission_dropped
        (generate : string -> AspectRatio -> option File -> Outcome)
        (r : option AspectRatio) (w : World) :
  isLoading (ui w) = true ->
  calls (submit generate r w) = calls w /\
  pendingCall (handleGenerateClick (ui w) r (ui w)) = None /\
  (prompt (ui w) <> "" \/ uploadedImage (ui w) <> None ->
   submit generate r w = w) /\
  (prompt (ui w) = "" -> uploadedImage (ui w) = None ->
   ui (submit generate r w) =
   mkState (prompt (ui w)) (uploadedImage (ui w)) (selectedStyle (ui w))
           (selectedAspectRatio (ui w)) (isLoading (ui w))
           (generatedImageUrl (ui w))
           (Some "Please write a prompt or upload an image.")
           (isTextOnlyResult (ui w))).
Proof.
  intro Hl. destruct (blank_or_filled (ui w)) as [Hb|Hf].
  - rewrite submit_blank by exact Hb.
    rewrite (handleGenerateClick_blank _ r (ui w) Hb). simpl.
    repeat split; auto.
    intro Hf. exfalso. exact (blank_not_filled _ Hb Hf).
  - rewrite submit_loading by assumption.
    rewrite (handleGenerateClick_loading _ r (ui w) Hf Hl). simpl.
    repeat split; auto.
    intros Hp Hi. exfalso. apply (blank_not_filled (ui w)); [split|]; assumption.
Qed.

Lemma duplicate_submission_dropped_witness :
  submit (throwing JsNull) (Some Ratio_9_16) loadingCatPage = loadingCatPage.
Proof.
  apply (duplicate_submission_dropped (throwing JsNull) (Some Ratio_9_16)
                                      loadingCatPage).
  - reflexivity.
  - left. discriminate.
Defined.

(** C2 as first stated fails: on a loading snapshot with an empty prompt
    and no image, the submission changes the error state. *)
Lemma duplicate_submission_not_always_silent :
  isLoading (ui loadingBlankPage) = true /\
  error (ui loadingBlankPage) = None /\
  error (ui (submit (resolving referenceUrl) None loadingBlankPage)) =
    Some "Please write a prompt or upload an image." /\
  submit (resolving referenceUrl) None loadingBlankPage <> loadingBlankPage.
Proof.
  repeat split. discriminate.
Qed.

(** C3. For an accepted submission with non-empty prompt text, the first
    argument the Generation Client receives is exactly the prompt,
    followed by [", in a "], the lower-cased style label and [" style."]. *)
Theorem client_receives_styled_prompt
        (generate : string -> AspectRatio -> option File -> Outcome)
        (r : option AspectRatio) (w : World) :
  prompt (ui w) <> "" -> isLoading (ui w) = false ->
  calls (submit generate r w) =
  (calls w ++
   [mkCall (prompt (ui w) ++ ", in a " ++ toLowerCase (selectedStyle (ui w))
              ++ " style.")
           (currentAspectRatio (ui w) r) (uploadedImage (ui w))])%list.
Proof.
  intros Hp Hl.
  rewrite submit_accepted by (try left; assumption).
  reflexivity.
Qed.

Lemma client_receives_styled_prompt_witness :
  calls (submit (resolving referenceUrl) None catPage) =
  (calls catPage ++
   [mkCall (prompt (ui catPage) ++ ", in a "
              ++ toLowerCase (selectedStyle (ui catPage)) ++ " style.")
           (currentAspectRatio (ui catPage) None) (uploadedImage (ui catPage))])%list.
Proof.
  apply (client_receives_styled_prompt (resolving referenceUrl) None catPage).
  - discriminate.
  - reflexivity.
Defined.

(** C4. When the Generation Client resolves an accepted submission with
    the image reference [url], the final state holds exactly that
    reference, has no error, and is no longer loading. *)
Theorem success_holds_returned_reference
        (generate : string -> AspectRatio -> option File -> Outcome)
        (r : option AspectRatio) (w : World) (url : string) :
  prompt (ui w) <> "" \/ uploadedImage (ui w) <> None ->
  isLoading (ui w) = false ->
  generate (finalPrompt (ui w)) (currentAspectRatio (ui w) r) (uploadedImage (ui w))
    = Resolved url ->
  generatedImageUrl (ui (submit generate r w)) = Some url /\
  error (ui (submit generate r w)) = None /\
  isLoading (ui (submit generate r w)) = false.
Proof.
  intros Hf Hl Hg.
  rewrite submit_accepted by assumption.
  rewrite Hg. simpl. auto.
Qed.

Lemma success_holds_returned_reference_witness :
  generatedImageUrl (ui (submit (resolving referenceUrl) None catPhotoPage))
    = Some referenceUrl /\
  error (ui (submit (resolving referenceUrl) None catPhotoPage)) = None /\
  isLoading (ui (submit (resolving referenceUrl) None catPhotoPage)) = false.
Proof.
  apply (success_holds_returned_reference (resolving referenceUrl) None
                                          catPhotoPage referenceUrl).
  - left. discriminate.
  - reflexivity.
  - reflexivity.
Defined.

(** C5. When the Generation Client fails an accepted submission by
    throwing an [Error], the final state holds that error's message
    verbatim, shows no result, and is no longer loading. *)
Theorem failure_holds_error_message
        (generate : string -> AspectRatio -> option File -> Outcome)
        (r : option AspectRatio) (w : World) (msg : string) :
  prompt (ui w) <> "" \/ uploadedImage (ui w) <> None ->
  isLoading (ui w) = false ->
  generate (finalPrompt (ui w)) (currentAspectRatio (ui w) r) (uploadedImage (ui w))
    = Thrown (JsError msg) ->
  error (ui (submit generate r w)) = Some msg /\
  generatedImageUrl (ui (submit generate r w)) = None /\
  isLoading (ui (submit generate r w)) = false.
Proof.
  intros Hf Hl Hg.
  rewrite submit_accepted by assumption.
  rewrite Hg. simpl. auto.
Qed.

(** The page shows an earlier result, and the retry then fails. *)
Lemma failure_holds_error_message_witness :
  error (ui (submit (throwing (JsError "Quota exceeded")) (Some Ratio_9_16)
                    catResultPage)) = Some "Quota exceeded" /\
  generatedImageUrl (ui (submit (throwing (JsError "Quota exceeded"))
                                (Some Ratio_9_16) catResultPage)) = None /\
  isLoading (ui (submit (throwing (JsError "Quota exceeded")) (Some Ratio_9_16)
                        catResultPage)) = false.
Proof.
  apply (failure_holds_error_message (throwing (JsError "Quota exceeded"))
                                     (Some Ratio_9_16) catResultPage
                                     "Quota exceeded").
  - left. discriminate.
  - reflexivity.
  - reflexivity.
Defined.

(** C6. Reset clears the result and the error, and leaves the prompt
    text and the uploaded image as they were; it touches nothing else
    and makes no call. *)
Theorem reset_clears_result_keeps_inputs
        (generate : string -> AspectRatio -> option File -> Outcome) (w : World) :
  generatedImageUrl (ui (reset generate w)) = None /\
  error (ui (reset generate w)) = None /\
  prompt (ui (reset generate w)) = prompt (ui w) /\
  uploadedImage (ui (reset generate w)) = uploadedImage (ui w) /\
  selectedStyle (ui (reset generate w)) = selectedStyle (ui w) /\
  selectedAspectRatio (ui (reset generate w)) = selectedAspectRatio (ui w) /\
  isLoading (ui (reset generate w)) = isLoading (ui w) /\
  isTextOnlyResult (ui (reset generate w)) = isTextOnlyResult (ui w) /\
  calls (reset generate w) = calls w.
Proof.
  unfold reset, perform. simpl. repeat split.
Qed.

(** C7, as the code has it.  The aspect-ratio retry is on screen only
    when [isTextOnlyResult] is set.  A retry with [newRatio] that passes
    validation (prompt non-empty or an image uploaded) calls the
    Generation Client once, with the current prompt, style and image and
    with [newRatio], and makes [newRatio] the selected aspect ratio.  A
    retry with an empty prompt and no image is rejected as in C1: no
    call, the selected aspect ratio as it was. *)
Theorem aspect_ratio_retry
        (generate : string -> AspectRatio -> option File -> Outcome)
        (newRatio : AspectRatio) (w : World) :
  retryOffered (ui w) = true ->
  isTextOnlyResult (ui w) = true /\
  (prompt (ui w) <> "" \/ uploadedImage (ui w) <> None ->
   calls (submit generate (Some newRatio) w) =
   (calls w ++
    [mkCall (prompt (ui w) ++ ", in a " ++ toLowerCase (selectedStyle (ui w))
               ++ " style.")
            newRatio (uploadedImage (ui w))])%list /\
   selectedAspectRatio (ui (submit generate (Some newRatio) w)) = newRatio) /\
  (prompt (ui w) = "" -> uploadedImage (ui w) = None ->
   calls (submit generate (Some newRatio) w) = calls w /\
   selectedAspectRatio (ui (submit generate (Some newRatio) w)) =
     selectedAspectRatio (ui w) /\
   error (ui (submit generate (Some newRatio) w)) =
     Some "Please write a prompt or upload an image.").
Proof.
  intro Ho. apply renderContent_retry in Ho. destruct Ho as (Hl & _ & _ & Ht).
  split; [exact Ht|]. split.
  - intro Hf. rewrite submit_accepted by assumption. simpl. auto.
  - intros Hp Hi. rewrite submit_blank by (split; assumption). simpl. auto.
Qed.

Lemma aspect_ratio_retry_witness :
  calls (submit (resolving referenceUrl) (Some Ratio_9_16) catResultPage) =
  (calls catResultPage ++
   [mkCall (prompt (ui catResultPage) ++ ", in a "
              ++ toLowerCase (selectedStyle (ui catResultPage)) ++ " style.")
           Ratio_9_16 (uploadedImage (ui catResultPage))])%list /\
  selectedAspectRatio (ui (submit (resolving referenceUrl) (Some Ratio_9_16)
                                  catResultPage)) = Ratio_9_16.
Proof.
  apply (aspect_ratio_retry (resolving referenceUrl) Ratio_9_16 catResultPage).
  - reflexivity.
  - left. discriminate.
Defined.

(** C7 as first stated fails: after a text-only success the user empties
    the prompt box and picks "9:16" in the retry selector; the Generation
    Client receives nothing new and "3:4" stays selected. *)
Lemma aspect_ratio_retry_can_be_rejected :
  retryOffered (ui clearedResultPage) = true /\
  selectedAspectRatio (ui clearedResultPage) = Ratio_3_4 /\
  calls (submit (resolving referenceUrl) (Some Ratio_9_16) clearedResultPage) =
    calls clearedResultPage /\
  selectedAspectRatio
    (ui (submit (resolving referenceUrl) (Some Ratio_9_16) clearedResultPage))
    <> Ratio_9_16.
Proof.
  repeat split. discriminate.
Qed.

(** C8. When the Generation Client resolves an accepted submission,
    [isTextOnlyResult] is set exactly when that request had no uploaded
    image, and cleared exactly when it had one. *)
Theorem text_only_flag_on_success
        (generate : string -> AspectRatio -> option File -> Outcome)
        (r : option AspectRatio) (w : World) (url : string) :
  prompt (ui w) <> "" \/ uploadedImage (ui w) <> None ->
  isLoading (ui w) = false ->
  generate (finalPrompt (ui w)) (currentAspectRatio (ui w) r) (uploadedImage (ui w))
    = Resolved url ->
  (isTextOnlyResult (ui (submit generate r w)) = true <->
   uploadedImage (ui w) = None) /\
  (isTextOnlyResult (ui (submit generate r w)) = false <->
   uploadedImage (ui w) <> None).
Proof.
  intros Hf Hl Hg.
  rewrite submit_accepted by assumption. simpl.
  rewrite negb_true_iff, negb_false_iff.
  split; [apply present_false_iff | apply present_true_iff].
Qed.

Lemma text_only_flag_on_success_witness :
  (isTextOnlyResult (ui (submit (resolving referenceUrl) None catPage)) = true <->
   uploadedImage (ui catPage) = None) /\
  (isTextOnlyResult (ui (submit (resolving referenceUrl) None catPage)) = false <->
   uploadedImage (ui catPage) <> None).
Proof.
  apply (text_only_flag_on_success (resolving referenceUrl) None catPage
                                   referenceUrl).
  - left. discriminate.
  - reflexivity.
  - reflexivity.
Defined.

(** C9. The aspect ratios shown to the user are ["3:4"] then ["9:16"],
    and each of them is one of the five members of the [AspectRatio]
    type, "1:1", "3:4", "4:3", "9:16" and "16:9". *)
Theorem surfaced_aspect_ratios :
  map literal ASPECT_RATIOS = ["3:4"; "9:16"] /\
  map literal AspectRatio_members = ["1:1"; "3:4"; "4:3"; "9:16"; "16:9"] /\
  (forall r, In r AspectRatio_members) /\
  (forall x, In x (map literal ASPECT_RATIOS) ->
             In x (map literal AspectRatio_members)).
Proof.
  split; [reflexivity|]. split; [reflexivity|].
  split; [exact AspectRatio_members_complete|].
  intros x Hx. apply in_map_iff in Hx. destruct Hx as (r & <- & _).
  apply in_map, AspectRatio_members_complete.
Qed.

(** C10. When the Generation Client fails an accepted submission by
    throwing a value that is not an [Error], the final state holds the
    fallback message; and whatever is thrown, the final state holds some
    message. *)
Theorem failure_without_error_instance
        (generate : string -> AspectRatio -> option File -> Outcome)
        (r : option AspectRatio) (w : World) (thrown : JsValue) :
  prompt (ui w) <> "" \/ uploadedImage (ui w) <> None ->
  isLoading (ui w) = false ->
  generate (finalPrompt (ui w)) (currentAspectRatio (ui w) r) (uploadedImage (ui w))
    = Thrown thrown ->
  (exists m, error (ui (submit generate r w)) = Some m) /\
  generatedImageUrl (ui (submit generate r w)) = None /\
  isLoading (ui (submit generate r w)) = false /\
  (instanceof_Error thrown = false ->
   error (ui (submit generate r w)) = Some "An unknown error occurred.").
Proof.
  intros Hf Hl Hg.
  rewrite submit_accepted by assumption.
  rewrite Hg. simpl. repeat split.
  - eexists. reflexivity.
  - intro Hn. rewrite Hn. reflexivity.
Qed.

Lemma failure_without_error_instance_witness :
  error (ui (submit (throwing (JsObject [("message", "boom")])) None catPage)) =
  Some "An unknown error occurred.".
Proof.
  apply (failure_without_error_instance
           (throwing (JsObject [("message", "boom")])) None catPage
           (JsObject [("message", "boom")])).
  - left. discriminate.
  - reflexivity.
  - reflexivity.
  - reflexivity.
Defined.

(** * Further properties of the component *)

(** ** What is on screen *)

(** X1. The block that holds [renderContent()] is put in the page
    exactly when [renderContent] returns something: it is never there
    empty, and no card is ever left out. *)
Theorem result_block_shown_iff_content (s : State) :
  resultBlockShown s = true <-> renderContent s <> Nothing.
Proof.
  unfold resultBlockShown, renderContent.
  destruct (isLoading s), (truthy_or_null (error s)),
    (truthy_or_null (generatedImageUrl s));
    simpl; split; intro H; try discriminate; try reflexivity; congruence.
Qed.

(** X2. After an accepted submission that the client rejects, the
    failure card shows the stored message, unless that message is the
    empty string (an [Error] without text): then nothing at all is
    rendered, neither a failure card nor a result. *)
Theorem rendered_after_failure
        (generate : string -> AspectRatio -> option File -> Outcome)
        (r : option AspectRatio) (w : World) (thrown : JsValue) :
  prompt (ui w) <> "" \/ uploadedImage (ui w) <> None ->
  isLoading (ui w) = false ->
  generate (finalPrompt (ui w)) (currentAspectRatio (ui w) r) (uploadedImage (ui w))
    = Thrown thrown ->
  renderContent (ui (submit generate r w)) =
  match thrown with
  | JsError "" => Nothing
  | JsError m => FailureCard m
  | _ => FailureCard "An unknown error occurred."
  end.
Proof.
  intros Hf Hl Hg.
  rewrite submit_accepted by assumption.
  rewrite Hg. unfold renderContent. simpl.
  destruct thrown as [| |b|n|t|fields|m]; try reflexivity.
  destruct m; reflexivity.
Qed.

Lemma rendered_after_failure_witness :
  renderContent (ui (submit (throwing (JsError "")) None catPage)) = Nothing.
Proof.
  apply (rendered_after_failure (throwing (JsError "")) None catPage (JsError "")).
  - left. discriminate.
  - reflexivity.
  - reflexivity.
Defined.

(** X3. After an accepted submission that the client resolves, the
    result card shows the returned reference, with the aspect-ratio
    retry exactly when the request carried no image; an empty reference
    is treated as no result and nothing is rendered. *)
Theorem rendered_after_success
        (generate : string -> AspectRatio -> option File -> Outcome)
        (r : option AspectRatio) (w : World) (url : string) :
  prompt (ui w) <> "" \/ uploadedImage (ui w) <> None ->
  isLoading (ui w) = false ->
  generate (finalPrompt (ui w)) (currentAspectRatio (ui w) r) (uploadedImage (ui w))
    = Resolved url ->
  renderContent (ui (submit generate r w)) =
  match url with
  | "" => Nothing
  | _ => ResultCard url (negb (present (uploadedImage (ui w))))
  end.
Proof.
  intros Hf Hl Hg.
  rewrite submit_accepted by assumption.
  rewrite Hg. unfold renderContent. simpl.
  destruct url; reflexivity.
Qed.

Lemma rendered_after_success_witness :
  renderContent (ui (submit (resolving referenceUrl) None catPhotoPage)) =
  ResultCard referenceUrl false.
Proof.
  apply (rendered_after_success (resolving referenceUrl) None catPhotoPage
                                referenceUrl).
  - left. discriminate.
  - reflexivity.
  - reflexivity.
Defined.

(** ** How the handlers compose *)

(** X4. A rejected submission is undone by Try Again: when no error was
    stored before, a click with an empty prompt and no image followed by
    [setError(null)] gives back the very state of before the click, an
    earlier result included. *)
Theorem try_again_undoes_rejection
        (generate : string -> AspectRatio -> option File -> Outcome)
        (r : option AspectRatio) (w : World) :
  prompt (ui w) = "" -> uploadedImage (ui w) = None -> error (ui w) = None ->
  perform generate (setError None) (submit generate r w) = w.
Proof.
  intros Hp Hi He.
  rewrite submit_blank by (split; assumption).
  unfold perform. simpl. rewrite <- He.
  destruct w as [s log]. destruct s. reflexivity.
Qed.

Lemma try_again_undoes_rejection_witness :
  perform (resolving referenceUrl) (setError None)
          (submit (resolving referenceUrl) (Some Ratio_9_16) clearedResultPage)
  = clearedResultPage.
Proof.
  apply (try_again_undoes_rejection (resolving referenceUrl) (Some Ratio_9_16)
                                    clearedResultPage); reflexivity.
Defined.

(** X5. The [disabled] of the Generate button says exactly what the
    handler would do: the button is enabled if and only if a click
    reaches the Generation Client. *)
Theorem generate_button_agrees_with_guards (s : State) (r : option AspectRatio) :
  generateDisabled s = false <->
  pendingCall (handleGenerateClick s r s) =
  Some (mkCall (finalPrompt s) (currentAspectRatio s r) (uploadedImage s)).
Proof.
  unfold generateDisabled.
  destruct (blank_or_filled s) as [Hb|Hf].
  - rewrite (handleGenerateClick_blank s r s Hb).
    apply blank_guard in Hb. rewrite Hb, orb_true_r. simpl.
    split; intro H; discriminate.
  - destruct (isLoading s) eqn:Hl.
    + rewrite (handleGenerateClick_loading s r s Hf Hl). simpl.
      split; intro H; discriminate.
    + destruct (handleGenerateClick_accepted s r s Hf Hl) as (k & E & _).
      rewrite E. apply filled_guard in Hf. rewrite Hf. simpl.
      split; intro H; reflexivity.
Qed.

(** X6. An accepted click on Generate, which passes no ratio, sends the
    selected aspect ratio and leaves the selection as it is. *)
Theorem generate_uses_selected_ratio
        (generate : string -> AspectRatio -> option File -> Outcome) (w : World) :
  prompt (ui w) <> "" \/ uploadedImage (ui w) <> None ->
  isLoading (ui w) = false ->
  map call_aspectRatio (calls (submit generate None w)) =
    (map call_aspectRatio (calls w) ++ [selectedAspectRatio (ui w)])%list /\
  selectedAspectRatio (ui (submit generate None w)) = selectedAspectRatio (ui w).
Proof.
  intros Hf Hl.
  rewrite submit_accepted by assumption. simpl.
  rewrite map_app. simpl. auto.
Qed.

Lemma generate_uses_selected_ratio_witness :
  map call_aspectRatio (calls (submit (resolving referenceUrl) None catPage)) =
    (map call_aspectRatio (calls catPage) ++ [selectedAspectRatio (ui catPage)])%list /\
  selectedAspectRatio (ui (submit (resolving referenceUrl) None catPage)) =
    selectedAspectRatio (ui catPage).
Proof.
  apply (generate_uses_selected_ratio (resolving referenceUrl) catPage).
  - left. discriminate.
  - reflexivity.
Defined.

(** X7. Create New is not needed before generating again: an accepted
    submission gives the same state and the same calls whether or not
    the result was reset first. *)
Theorem reset_before_submit_is_redundant
        (generate : string -> AspectRatio -> option File -> Outcome)
        (r : option AspectRatio) (w : World) :
  prompt (ui w) <> "" \/ uploadedImage (ui w) <> None ->
  isLoading (ui w) = false ->
  submit generate r (reset generate w) = submit generate r w.
Proof.
  intros Hf Hl.
  rewrite (submit_accepted generate r w) by assumption.
  rewrite submit_accepted; [reflexivity | exact Hf | exact Hl].
Qed.

Lemma reset_before_submit_is_redundant_witness :
  submit (resolving referenceUrl) (Some Ratio_9_16)
         (reset (resolving referenceUrl) catResultPage) =
  submit (resolving referenceUrl) (Some Ratio_9_16) catResultPage.
Proof.
  apply (reset_before_submit_is_redundant (resolving referenceUrl)
                                          (Some Ratio_9_16) catResultPage).
  - left. discriminate.
  - reflexivity.
Defined.

(** ** Download *)

(** The name [handleDownload] gives the file saved at time [now]. *)
Definition downloadName (now : Z) : string :=
  "everybanana-" ++ numberToString now ++ ".jpg".

Lemma filter_other_nodes (n : nat) (l : list Element) :
  Forall (fun e => node e < n) l ->
  filter (fun x => negb (Nat.eqb (node x) n)) l = l.
Proof.
  induction 1 as [|e rest He _ IH]; simpl.
  - reflexivity.
  - replace (Nat.eqb (node e) n) with false
      by (symmetry; apply Nat.eqb_neq; lia).
    simpl. now rewrite IH.
Qed.

Lemma length_append (a b : string) :
  String.length (a ++ b) = String.length a + String.length b.
Proof.
  induction a as [|x a IH]; simpl; [reflexivity | now rewrite IH].
Qed.

Lemma append_inj_r (a b c : string) : (a ++ c = b ++ c)%string -> a = b.
Proof.
  revert b. induction a as [|x a IH]; intros [|y b] H; simpl in H.
  - reflexivity.
  - exfalso. apply (f_equal String.length) in H. simpl in H.
    rewrite length_append in H. lia.
  - exfalso. apply (f_equal String.length) in H. simpl in H.
    rewrite length_append in H. lia.
  - injection H as -> H. f_equal. now apply IH.
Qed.

Lemma numberToString_injective (m n : Z) :
  numberToString m = numberToString n -> m = n.
Proof.
  unfold numberToString. intro H.
  assert (Hnil : forall z, Z.to_int z <> Decimal.Pos Decimal.Nil /\
                           Z.to_int z <> Decimal.Neg Decimal.Nil).
  { intro z. split; intro E; pose proof (f_equal Z.of_int E) as Ez;
      rewrite DecimalZ.of_to in Ez; simpl in Ez; subst z; discriminate E. }
  apply (f_equal NilZero.int_of_string) in H.
  rewrite !NilZero.isi in H by apply Hnil.
  injection H as H. apply (f_equal Z.of_int) in H.
  now rewrite !DecimalZ.of_to in H.
Qed.

Lemma filter_twice {T : Type} (f : T -> bool) (l : list T) :
  filter f (filter f l) = filter f l.
Proof.
  induction l as [|x l IH]; simpl; [reflexivity|].
  destruct (f x) eqn:E; simpl; [rewrite E, IH|]; auto.
Qed.

Lemma sameNode_refl (e : Element) : sameNode e e = true.
Proof. apply Nat.eqb_refl. Qed.

(** Append, click, remove: the node is always found; what is left is the
    body without the node and the files saved by the click. *)
Lemma remove_after_append (e : Element) (d : Document) :
  removeChild e (click e (appendChild e d)) =
  Some (mkDocument (filter (fun x => negb (sameNode x e)) (body d))
                   (nextNode d) (saved (click e d))).
Proof.
  assert (Hbody : body (click e (appendChild e d)) =
                  (filter (fun x => negb (sameNode x e)) (body d) ++ [e])%list)
    by (unfold click; destruct (_ && _); reflexivity).
  assert (Hnext : nextNode (click e (appendChild e d)) = nextNode d)
    by (unfold click; destruct (_ && _); reflexivity).
  assert (Hsaved : saved (click e (appendChild e d)) = saved (click e d))
    by (unfold click; destruct (_ && _); reflexivity).
  unfold removeChild. rewrite Hbody, Hnext, Hsaved.
  rewrite existsb_app. cbn [existsb]. rewrite sameNode_refl, orb_true_l, orb_true_r.
  rewrite filter_app, filter_twice. cbn [filter].
  rewrite sameNode_refl. cbn [negb]. now rewrite app_nil_r.
Qed.

(** The link [handleDownload] builds for the reference [u]. *)
Definition downloadLink (n : nat) (u : string) (now : Z) : Element :=
  mkElement n "a" u ("everybanana-" ++ numberToString now ++ ".jpg").

Lemma handleDownload_result (c : State) (now : Z) (d : Document) (u : string) :
  generatedImageUrl c = Some u -> u <> "" ->
  handleDownload c now d =
  Some (mkDocument
          (filter (fun x => negb (sameNode x (downloadLink (nextNode d) u now)))
                  (body d))
          (S (nextNode d))
          (saved d ++ [(u, ("everybanana-" ++ numberToString now ++ ".jpg")%string)])).
Proof.
  intros Hu Hne. unfold handleDownload, createElement. rewrite Hu.
  apply truthy_true_iff in Hne. cbn [truthy_or_null]. rewrite Hne.
  cbn [negb node tagName].
  change (mkElement (nextNode d) "a" u
            ("everybanana-" ++ numberToString now ++ ".jpg"))
    with (downloadLink (nextNode d) u now).
  rewrite remove_after_append. reflexivity.
Qed.

Lemma handleDownload_nothing (c : State) (now : Z) (d : Document) :
  truthy_or_null (generatedImageUrl c) = false ->
  handleDownload c now d = Some d.
Proof.
  intro H. unfold handleDownload. now rewrite H.
Qed.

(** X8. [handleDownload] never raises, on any document: the node it
    removes is a child by then.  Without a result (none, or the empty
    string) it leaves the document alone; with a result it asks the
    browser to save exactly one file, the displayed reference, under the
    name ["everybanana-"], the clock reading, [".jpg"]. *)
Theorem download_saves_displayed_result (c : State) (now : Z) (d : Document) :
  exists d',
    handleDownload c now d = Some d' /\
    saved d' =
    (saved d ++
     match generatedImageUrl c with
     | Some "" | None => []
     | Some u => [(u, ("everybanana-" ++ numberToString now ++ ".jpg")%string)]
     end)%list /\
    (truthy_or_null (generatedImageUrl c) = false -> d' = d).
Proof.
  destruct (generatedImageUrl c) as [[|x u]|] eqn:Hu.
  - exists d. rewrite handleDownload_nothing by (rewrite Hu; reflexivity).
    rewrite app_nil_r. auto.
  - rewrite (handleDownload_result c now d (String x u) Hu) by discriminate.
    eexists. split; [reflexivity|]. split; [reflexivity|].
    intro H. discriminate.
  - exists d. rewrite handleDownload_nothing by (rewrite Hu; reflexivity).
    rewrite app_nil_r. auto.
Qed.

(** X9. On a document whose nodes were all created before, a download
    leaves the children of [document.body] exactly as they were: the
    link it appends is gone again, and nothing else has moved. *)
Theorem download_restores_body (c : State) (now : Z) (d d' : Document) :
  Forall (fun e => node e < nextNode d) (body d) ->
  handleDownload c now d = Some d' ->
  body d' = body d /\
  Forall (fun e => node e < nextNode d') (body d').
Proof.
  intros Hfresh.
  destruct (generatedImageUrl c) as [[|x u]|] eqn:Hu.
  - rewrite handleDownload_nothing by (rewrite Hu; reflexivity).
    intro H. injection H as <-. auto.
  - rewrite (handleDownload_result c now d (String x u) Hu) by discriminate.
    intro H. injection H as <-. cbn [body nextNode].
    unfold sameNode, downloadLink. cbn [node].
    rewrite filter_other_nodes by exact Hfresh.
    split; [reflexivity|].
    eapply Forall_impl; [|exact Hfresh]. simpl. intros e He. lia.
  - rewrite handleDownload_nothing by (rewrite Hu; reflexivity).
    intro H. injection H as <-. auto.
Qed.

Definition sampleDocument : Document :=
  mkDocument [mkElement 0 "div" "" ""; mkElement 1 "script" "" ""] 2 [].

Lemma download_restores_body_witness :
  body (mkDocument (body sampleDocument) 3
                   [(referenceUrl, downloadName 1730563200123)]) =
  body sampleDocument.
Proof.
  apply (download_restores_body (ui catResultPage) 1730563200123 sampleDocument).
  - repeat constructor.
  - reflexivity.
Defined.

(** What one call of [handleDownload] adds to the saved files. *)
Lemma handleDownload_saved (c : State) (now : Z) (d d' : Document)
      (u name : string) :
  handleDownload c now d = Some d' ->
  saved d' = (saved d ++ [(u, name)])%list ->
  generatedImageUrl c = Some u /\ u <> "" /\
  name = ("everybanana-" ++ numberToString now ++ ".jpg")%string.
Proof.
  intros H S.
  destruct (generatedImageUrl c) as [[|x v]|] eqn:Hu.
  - rewrite handleDownload_nothing in H by (rewrite Hu; reflexivity).
    injection H as <-. exfalso.
    apply (f_equal (@List.length _)) in S. rewrite length_app in S. simpl in S. lia.
  - rewrite (handleDownload_result c now d (String x v) Hu) in H by discriminate.
    injection H as <-. cbn [saved] in S. apply app_inv_head in S.
    injection S as Eu En. subst u name. repeat split. discriminate.
  - rewrite handleDownload_nothing in H by (rewrite Hu; reflexivity).
    injection H as <-. exfalso.
    apply (f_equal (@List.length _)) in S. rewrite length_app in S. simpl in S. lia.
Qed.

(** X10. Two downloads get the same file name only when the clock gave
    the same reading: names made at different milliseconds differ. *)
Theorem download_names_distinct (c1 c2 : State) (t1 t2 : Z) (d1 d2 d1' d2' : Document)
        (u1 u2 name : string) :
  handleDownload c1 t1 d1 = Some d1' ->
  handleDownload c2 t2 d2 = Some d2' ->
  saved d1' = (saved d1 ++ [(u1, name)])%list ->
  saved d2' = (saved d2 ++ [(u2, name)])%list ->
  t1 = t2.
Proof.
  intros H1 H2 S1 S2.
  destruct (handleDownload_saved c1 t1 d1 d1' u1 name H1 S1) as (_ & _ & N1).
  destruct (handleDownload_saved c2 t2 d2 d2' u2 name H2 S2) as (_ & _ & N2).
  rewrite N1 in N2. simpl in N2.
  injection N2 as N2. apply append_inj_r in N2.
  now apply numberToString_injective.
Qed.

Lemma download_names_distinct_witness : 1730563200123%Z = 1730563200123%Z.
Proof.
  apply (download_names_distinct
           (ui catResultPage) (ui catResultPage) 1730563200123 1730563200123
           sampleDocument (mkDocument [] 0 [])
           (mkDocument (body sampleDocument) 3
                       [(referenceUrl, downloadName 1730563200123)])
           (mkDocument [] 1 [(referenceUrl, downloadName 1730563200123)])
           referenceUrl referenceUrl (downloadName 1730563200123));
    reflexivity.
Defined.

(** ** The page, step by step *)

Local Open Scope list_scope.

(** The continuation [handleGenerateClick] leaves at its [await]. *)
Definition settlesOnce (resume : Outcome -> State -> Task unit) : Prop :=
  forall settled s', resume settled s' = Done tt (settledState settled s').

(** The call an accepted click makes. *)
Definition requestOf (c : State) (r : option AspectRatio) : ClientCall :=
  mkCall (finalPrompt c) (currentAspectRatio c r) (uploadedImage c).

(** A step that neither starts nor ends a request: the loading flag and
    the text-only flag stay; the result stays or, off loading, is
    cleared; the error stays or, off loading, is cleared or becomes the
    validation message. *)
Definition quiet (s s' : State) : Prop :=
  isLoading s' = isLoading s /\
  isTextOnlyResult s' = isTextOnlyResult s /\
  (generatedImageUrl s' = generatedImageUrl s \/
   isLoading s = false /\ generatedImageUrl s' = None) /\
  (error s' = error s \/
   isLoading s = false /\
   (error s' = None \/
    error s' = Some "Please write a prompt or upload an image.")).

Inductive Move (p : Page) : Label -> Page -> Prop :=
| MoveQuiet (e : Event) (s' : State) :
    quiet (live p) s' ->
    Move p (User e) (mkPage s' (inflight p) (sent p) (document p))
| MoveAccepted (e : Event) (r : option AspectRatio)
               (resume : Outcome -> State -> Task unit) :
    isLoading (live p) = false -> filled (live p) -> settlesOnce resume ->
    Move p (User e)
         (mkPage (loadingState (live p) r (live p))
                 (inflight p ++ [(requestOf (live p) r, resume)])
                 (sent p ++ [requestOf (live p) r])
                 (document p))
| MoveDownload (now : Z) (d : Document) :
    showsResult (live p) = true ->
    handleDownload (live p) now (document p) = Some d ->
    Move p (User (ClickDownload now)) (mkPage (live p) (inflight p) (sent p) d)
| MoveSettle (call : ClientCall) (resume : Outcome -> State -> Task unit)
             (settled : Outcome) :
    inflight p = [(call, resume)] -> isLoading (live p) = true ->
    Move p (Settle 0 settled)
         (mkPage (settledState settled (live p)) [] (sent p) (document p)).

(** What holds of the page between any two events. *)
Record Inv (p : Page) : Prop := mkInv {
  inv_resume : Forall (fun cr => settlesOnce (snd cr)) (inflight p);
  inv_count : List.length (inflight p) = if isLoading (live p) then 1 else 0;
  inv_clean : isLoading (live p) = true ->
              error (live p) = None /\ generatedImageUrl (live p) = None;
  inv_body : body (document p) = []
}.

Lemma Inv_initialPage : Inv initialPage.
Proof.
  constructor; simpl; auto; discriminate.
Qed.

Lemma quiet_refl (s : State) : quiet s s.
Proof. unfold quiet. auto. Qed.

Lemma showsResult_not_loading (s : State) :
  showsResult s = true -> isLoading s = false.
Proof.
  unfold showsResult, renderContent. destruct (isLoading s); [|reflexivity].
  rewrite andb_false_r. discriminate.
Qed.

Lemma showsResult_truthy (s : State) :
  showsResult s = true ->
  exists u, generatedImageUrl s = Some u /\ u <> "".
Proof.
  unfold showsResult, renderContent.
  destruct (isLoading s); [rewrite andb_false_r; discriminate|].
  destruct (truthy_or_null (error s)); [rewrite andb_false_r; discriminate|].
  destruct (generatedImageUrl s) as [u|] eqn:Hu; simpl.
  - destruct (truthy u) eqn:Ht; [|rewrite andb_false_r; discriminate].
    intros _. exists u. split; [reflexivity | now apply truthy_true_iff].
  - rewrite andb_false_r. discriminate.
Qed.

Lemma showsFailure_not_loading (s : State) :
  showsFailure s = true -> isLoading s = false.
Proof.
  unfold showsFailure, renderContent. destruct (isLoading s); [|reflexivity].
  rewrite andb_false_r. discriminate.
Qed.

(** What a click wired to [handleGenerateClick] does to a page that is
    not loading. *)
Lemma absorb_click (p : Page) (e : Event) (r : option AspectRatio) :
  isLoading (live p) = false ->
  Move p (User e) (absorb (handleGenerateClick (live p) r (live p)) p).
Proof.
  intro Hl. destruct (blank_or_filled (live p)) as [Hb|Hf].
  - rewrite (handleGenerateClick_blank _ r (live p) Hb). simpl.
    apply MoveQuiet. unfold quiet. simpl. auto 8.
  - destruct (handleGenerateClick_accepted (live p) r (live p) Hf Hl)
      as (k & E & Hk).
    rewrite E. simpl. now apply (MoveAccepted p e r k).
Qed.

Lemma step_Move (p : Page) (l : Label) (p' : Page) :
  Inv p -> step p l = Some p' -> Move p l p'.
Proof.
  intros HI. destruct l as [e|i settled]; simpl.
  - destruct (offered (live p) e) eqn:Ho; [|discriminate].
    destruct e as [v|f|c| | |a|now| ]; simpl in *.
    + intro H. injection H as <-. apply MoveQuiet. unfold quiet. simpl. auto.
    + intro H. injection H as <-. apply MoveQuiet. unfold quiet. simpl. auto.
    + intro H. injection H as <-. apply MoveQuiet. unfold quiet. simpl. auto.
    + intro H. injection H as <-. apply absorb_click.
      unfold generateDisabled in Ho. apply negb_true_iff, orb_false_iff in Ho.
      tauto.
    + intro H. injection H as <-. apply MoveQuiet.
      apply showsFailure_not_loading in Ho. unfold quiet. simpl. auto 8.
    + intro H. injection H as <-. apply absorb_click.
      apply andb_true_iff in Ho. now apply showsResult_not_loading.
    + destruct (handleDownload (live p) now (document p)) as [d|] eqn:Hd;
        [|discriminate].
      intro H. injection H as <-. now apply MoveDownload.
    + intro H. injection H as <-. apply MoveQuiet.
      apply showsResult_not_loading in Ho. unfold quiet. simpl. auto 8.
  - pose proof (inv_count p HI) as Hc. pose proof (inv_resume p HI) as Hr.
    destruct (inflight p) as [|[call k] rest] eqn:Hin.
    + destruct i; discriminate.
    + destruct (isLoading (live p)) eqn:Hl; [|discriminate].
      destruct rest; [|discriminate].
      destruct i as [|i]; simpl; [|destruct i; discriminate].
      inversion Hr as [|x xs Hk _]; subst. simpl in Hk. rewrite Hk.
      intro H. injection H as <-. simpl.
      now apply (MoveSettle p call k settled).
Qed.

Lemma Move_Inv (p : Page) (l : Label) (p' : Page) :
  Inv p -> Move p l p' -> Inv p'.
Proof.
  intros [Hr Hc Hcl Hb] HM.
  destruct HM as [e s' (Ql & Qt & Qu & Qe) | e r k Hl Hf Hk
                 | now d Hs Hd | call k settled Hin Hl].
  - constructor; simpl; auto.
    + now rewrite Ql.
    + rewrite Ql. intro Hl. destruct (Hcl Hl) as [He Hu].
      destruct Qu as [-> | [Hn _]]; [|congruence].
      destruct Qe as [-> | [Hn _]]; [|congruence].
      auto.
  - constructor; simpl; auto.
    + apply Forall_app. split; [exact Hr|]. constructor; [exact Hk|constructor].
    + rewrite length_app. rewrite Hc, Hl. reflexivity.
  - constructor; simpl; auto.
    destruct (showsResult_truthy _ Hs) as (u & Hu & Hne).
    rewrite (handleDownload_result _ now _ u Hu Hne) in Hd.
    injection Hd as <-. simpl. now rewrite Hb.
  - constructor; simpl; auto. discriminate.
Qed.

Lemma steps_snoc (ls : list Label) (l : Label) :
  forall p,
    steps p (ls ++ [l]) =
    match steps p ls with
    | Some q => step q l
    | None => None
    end.
Proof.
  induction ls as [|x ls IH]; intro p; simpl.
  - destruct (step p l); reflexivity.
  - destruct (step p x) as [q|]; [apply IH | reflexivity].
Qed.

(** Induction along the events that lead to a page, with the events
    themselves at hand. *)
Lemma reach_ind (P : list Label -> Page -> Prop) :
  P [] initialPage ->
  (forall ls p l p',
      steps initialPage ls = Some p -> Inv p -> P ls p -> Move p l p' ->
      P (ls ++ [l]) p') ->
  forall ls p, steps initialPage ls = Some p -> Inv p /\ P ls p.
Proof.
  intros H0 Hstep ls. induction ls as [|l ls IH] using rev_ind; intros p Hp.
  - simpl in Hp. injection Hp as <-. split; [apply Inv_initialPage | exact H0].
  - rewrite steps_snoc in Hp.
    destruct (steps initialPage ls) as [q|] eqn:Hq; [|discriminate].
    destruct (IH q eq_refl) as [HI HP].
    pose proof (step_Move q l p HI Hp) as HM.
    split; [exact (Move_Inv q l p HI HM) | exact (Hstep ls q l p Hq HI HP HM)].
Qed.

Lemma reachable_Inv (p : Page) : reachable p -> Inv p.
Proof.
  intros [ls Hls].
  exact (proj1 (reach_ind (fun _ _ => True) I (fun _ _ _ _ _ _ _ _ => I) ls p Hls)).
Qed.

(** Sample pages the user reaches. *)
Definition pageAfter (ls : list Label) : Page :=
  match steps initialPage ls with
  | Some p => p
  | None => initialPage
  end.

Definition catTyped : list Label :=
  [User (ChangePrompt "A cat wearing a space helmet")].

Definition catRequested : list Label := catTyped ++ [User ClickGenerate].

Definition catShown : list Label :=
  catRequested ++ [Settle 0 (Resolved referenceUrl)].

Definition catSaved : list Label := catShown ++ [User (ClickDownload 1730563200123)].

Lemma reachable_pageAfter (ls : list Label) :
  steps initialPage ls <> None -> reachable (pageAfter ls).
Proof.
  intro H. exists ls. unfold pageAfter.
  destruct (steps initialPage ls); [reflexivity | congruence].
Qed.

(** X11. At most one request is ever in flight, and the loading flag is
    set exactly while one is. *)
Theorem one_request_in_flight (p : Page) :
  reachable p ->
  List.length (inflight p) <= 1 /\
  (isLoading (live p) = true <-> inflight p <> []).
Proof.
  intro Hr. apply reachable_Inv in Hr. destruct Hr as [_ Hc _ _].
  destruct (isLoading (live p)); destruct (inflight p); simpl in *;
    try discriminate; (split; [lia|]); split; intro H; congruence.
Qed.

Lemma one_request_in_flight_witness :
  List.length (inflight (pageAfter catRequested)) <= 1 /\
  (isLoading (live (pageAfter catRequested)) = true <->
   inflight (pageAfter catRequested) <> []).
Proof.
  apply (one_request_in_flight (pageAfter catRequested)).
  apply reachable_pageAfter. discriminate.
Defined.

(** X12. While a request is in flight the page holds neither an error
    nor a result, whatever the user did before and does meanwhile. *)
Theorem loading_page_is_clean (p : Page) :
  reachable p -> isLoading (live p) = true ->
  error (live p) = None /\ generatedImageUrl (live p) = None /\
  renderContent (live p) = Spinner.
Proof.
  intros Hr Hl. apply reachable_Inv in Hr. destruct Hr as [_ _ Hcl _].
  destruct (Hcl Hl) as [He Hu]. unfold renderContent. rewrite Hl. auto.
Qed.

Lemma loading_page_is_clean_witness :
  error (live (pageAfter catRequested)) = None /\
  generatedImageUrl (live (pageAfter catRequested)) = None /\
  renderContent (live (pageAfter catRequested)) = Spinner.
Proof.
  apply (loading_page_is_clean (pageAfter catRequested)).
  - apply reachable_pageAfter. discriminate.
  - reflexivity.
Defined.

(** X13. While loading, nothing that [App] itself renders can be used:
    the textarea and the Generate button are disabled and the buttons of
    the failure and result cards are not on screen.  Only the callbacks
    handed to [ImageUploader] and [ConceptSelector] remain. *)
Theorem only_children_while_loading (s : State) (e : Event) :
  isLoading s = true -> offered s e = true ->
  (exists file, e = UploadImage file) \/ (exists concept, e = SelectStyle concept).
Proof.
  intros Hl Ho.
  assert (Hr : showsResult s = false).
  { destruct (showsResult s) eqn:E; [|reflexivity].
    apply showsResult_not_loading in E. congruence. }
  assert (Hf : showsFailure s = false).
  { destruct (showsFailure s) eqn:E; [|reflexivity].
    apply showsFailure_not_loading in E. congruence. }
  destruct e as [v|f|c| | |a|now| ]; simpl in Ho;
    try (rewrite ?Hl, ?Hr, ?Hf in Ho; simpl in Ho; discriminate).
  - left. now exists f.
  - right. now exists c.
  - unfold generateDisabled in Ho. rewrite Hl in Ho. discriminate.
Qed.

Lemma only_children_while_loading_witness :
  (exists file, SelectStyle "Retro" = UploadImage file) \/
  (exists concept, SelectStyle "Retro" = SelectStyle concept).
Proof.
  apply (only_children_while_loading (live (pageAfter catRequested))
                                     (SelectStyle "Retro")); reflexivity.
Defined.

(** X14. The in-flight guard of [handleGenerateClick] is never what
    stops a click: both places that call it, the Generate button (no
    argument) and the aspect-ratio selector (a ratio), are usable only
    when the page is not loading; and an enabled Generate button is
    never rejected by validation either. *)
Theorem click_never_debounced (s : State) (e : Event) (r : option AspectRatio) :
  offered s e = true ->
  e = match r with
      | None => ClickGenerate
      | Some ratio => SelectRatio ratio
      end ->
  isLoading s = false /\
  (r = None -> prompt s <> "" \/ uploadedImage s <> None).
Proof.
  intros Ho ->. destruct r as [ratio|]; simpl in Ho.
  - apply andb_true_iff in Ho. destruct Ho as [Hs _].
    split; [now apply showsResult_not_loading | discriminate].
  - unfold generateDisabled in Ho.
    apply negb_true_iff, orb_false_iff in Ho. destruct Ho as [Hl Hb].
    split; [exact Hl | intros _; now apply filled_guard].
Qed.

Lemma click_never_debounced_witness :
  isLoading (live (pageAfter catShown)) = false /\
  (Some Ratio_9_16 = None ->
   prompt (live (pageAfter catShown)) <> "" \/
   uploadedImage (live (pageAfter catShown)) <> None).
Proof.
  apply (click_never_debounced (live (pageAfter catShown)) (SelectRatio Ratio_9_16)
                               (Some Ratio_9_16)); reflexivity.
Defined.

(** The number of requests that have settled along the way. *)
Fixpoint settleCount (ls : list Label) : nat :=
  match ls with
  | [] => 0
  | User _ :: rest => settleCount rest
  | Settle _ _ :: rest => S (settleCount rest)
  end.

Lemma settleCount_app (ls ms : list Label) :
  settleCount (ls ++ ms) = settleCount ls + settleCount ms.
Proof.
  induction ls as [|[e|i o] ls IH]; simpl; [reflexivity | exact IH | now rewrite IH].
Qed.

(** X15. Every call the Generation Client has received is accounted
    for: the calls sent are the requests that have settled plus the
    request in flight, so no click reaches the client twice and no
    request is started without being awaited. *)
Theorem calls_accounted_for (ls : list Label) (p : Page) :
  steps initialPage ls = Some p ->
  List.length (sent p) = settleCount ls + List.length (inflight p).
Proof.
  intro Hp.
  refine (proj2 (reach_ind
    (fun ls p => List.length (sent p) = settleCount ls + List.length (inflight p))
    eq_refl _ ls p Hp)).
  clear. intros ls p l p' _ HI IH HM. rewrite settleCount_app.
  destruct HM as [e s' _ | e r k _ _ _ | now d _ _ | call k settled Hin _]; simpl.
  - lia.
  - rewrite !length_app. simpl. lia.
  - lia.
  - rewrite Hin in IH. simpl in IH. lia.
Qed.

Lemma calls_accounted_for_witness :
  List.length (sent (pageAfter catShown)) =
  settleCount catShown + List.length (inflight (pageAfter catShown)).
Proof.
  apply (calls_accounted_for catShown (pageAfter catShown)). reflexivity.
Defined.

(** X16. The Generation Client is never asked for nothing: every call
    it has received carries the user's text in front of the style
    clause, and has non-empty text or an image. *)
Theorem client_never_called_blank (p : Page) (call : ClientCall) :
  reachable p -> In call (sent p) ->
  exists text style,
    call_prompt call = (text ++ ", in a " ++ toLowerCase style ++ " style.")%string /\
    (text <> "" \/ call_image call <> None).
Proof.
  intros [ls Hp]. revert call.
  refine (proj2 (reach_ind
    (fun _ p => forall call, In call (sent p) ->
       exists text style,
         call_prompt call
           = (text ++ ", in a " ++ toLowerCase style ++ " style.")%string /\
         (text <> "" \/ call_image call <> None))
    _ _ ls p Hp)).
  - intros call [].
  - clear. intros ls p l p' _ HI IH HM call.
    destruct HM as [e s' _ | e r k _ Hf _ | now d _ _ | c k settled _ _]; simpl;
      try apply IH.
    intro Hin. apply in_app_or in Hin. destruct Hin as [Hin|[<-|[]]].
    + now apply IH.
    + exists (prompt (live p)), (selectedStyle (live p)). split; [reflexivity|].
      exact Hf.
Qed.

Lemma client_never_called_blank_witness :
  exists text style,
    call_prompt (requestOf (live (pageAfter catTyped)) None) =
      (text ++ ", in a " ++ toLowerCase style ++ " style.")%string /\
    (text <> "" \/ call_image (requestOf (live (pageAfter catTyped)) None) <> None).
Proof.
  apply (client_never_called_blank (pageAfter catShown)
                                   (requestOf (live (pageAfter catTyped)) None)).
  - apply reachable_pageAfter. discriminate.
  - left. reflexivity.
Defined.

(** X17. A request in flight can always settle, and however it settles
    the page stops loading with nothing left in flight and no new call;
    a resolved reference becomes the result, a thrown value becomes the
    error with the result cleared.  The user's inputs are as they are at
    that moment. *)
Theorem settling_ends_loading (p : Page) (settled : Outcome) :
  reachable p -> isLoading (live p) = true ->
  exists p',
    step p (Settle 0 settled) = Some p' /\
    isLoading (live p') = false /\ inflight p' = [] /\ sent p' = sent p /\
    prompt (live p') = prompt (live p) /\
    uploadedImage (live p') = uploadedImage (live p) /\
    match settled with
    | Resolved url =>
        generatedImageUrl (live p') = Some url /\ error (live p') = None
    | Thrown err =>
        generatedImageUrl (live p') = None /\
        error (live p') = Some (if instanceof_Error err then message_of err
                                else "An unknown error occurred.")
    end.
Proof.
  intros Hr Hl. apply reachable_Inv in Hr.
  pose proof (inv_count p Hr) as Hc. rewrite Hl in Hc.
  pose proof (inv_resume p Hr) as Hk.
  destruct (inv_clean p Hr Hl) as [He Hu].
  destruct (inflight p) as [|[call k] rest] eqn:Hin; [discriminate|].
  destruct rest; [|discriminate].
  inversion Hk as [|x xs Hk1 _]; subst. simpl in Hk1.
  unfold step. rewrite Hin. simpl. rewrite Hk1. simpl.
  eexists. split; [reflexivity|]. simpl.
  destruct settled; auto 10.
Qed.

Lemma settling_ends_loading_witness :
  exists p',
    step (pageAfter catRequested) (Settle 0 (Thrown (JsString "offline"))) = Some p' /\
    isLoading (live p') = false /\ inflight p' = [] /\
    sent p' = sent (pageAfter catRequested) /\
    prompt (live p') = prompt (live (pageAfter catRequested)) /\
    uploadedImage (live p') = uploadedImage (live (pageAfter catRequested)) /\
    generatedImageUrl (live p') = None /\
    error (live p') = Some "An unknown error occurred.".
Proof.
  apply (settling_ends_loading (pageAfter catRequested)
                               (Thrown (JsString "offline"))).
  - apply reachable_pageAfter. discriminate.
  - reflexivity.
Defined.

(** X18. The page never shows or saves an image of its own making:
    every reference held as the result, and every reference handed to
    the browser for download, was returned by the Generation Client for
    some request that settled before. *)
Theorem images_come_from_client (ls : list Label) (p : Page) :
  steps initialPage ls = Some p ->
  (forall url, generatedImageUrl (live p) = Some url ->
               exists i, In (Settle i (Resolved url)) ls) /\
  (forall url name, In (url, name) (saved (document p)) ->
                    exists i, In (Settle i (Resolved url)) ls).
Proof.
  intro Hp.
  refine (proj2 (reach_ind
    (fun ls p =>
       (forall url, generatedImageUrl (live p) = Some url ->
                    exists i, In (Settle i (Resolved url)) ls) /\
       (forall url name, In (url, name) (saved (document p)) ->
                         exists i, In (Settle i (Resolved url)) ls))
    _ _ ls p Hp)).
  - simpl. split; [discriminate | intros url name []].
  - clear. intros ls p l p' _ HI [IHu IHs] HM.
    assert (Hold : forall x, (exists i, In (Settle i (Resolved x)) ls) ->
                             exists i, In (Settle i (Resolved x)) (ls ++ [l])).
    { intros x [i Hi]. exists i. apply in_or_app. now left. }
    destruct HM as [e s' (_ & _ & Qu & _) | e r k _ _ _ | now d Hs Hd
                   | c k settled _ _]; simpl.
    + split; [|intros; eapply Hold, IHs; eassumption].
      intros url Hu. destruct Qu as [E | [_ E]]; [|congruence].
      rewrite E in Hu. now apply Hold, IHu.
    + split; [discriminate | intros; eapply Hold, IHs; eassumption].
    + split; [intros; now apply Hold, IHu|].
      destruct (showsResult_truthy _ Hs) as (u & Hu & Hne).
      rewrite (handleDownload_result _ now _ u Hu Hne) in Hd.
      injection Hd as <-. simpl. intros url name Hin.
      apply in_app_or in Hin. destruct Hin as [Hin|[Hin|[]]].
      * eapply Hold, IHs; eassumption.
      * injection Hin as <- _. now apply Hold, IHu.
    + split; [|intros; eapply Hold, IHs; eassumption].
      destruct settled as [u|err]; simpl; [|discriminate].
      intros url Hu. injection Hu as <-. exists 0. apply in_or_app.
      right. now left.
Qed.

Lemma images_come_from_client_witness :
  (forall url, generatedImageUrl (live (pageAfter catSaved)) = Some url ->
               exists i, In (Settle i (Resolved url)) catSaved) /\
  (forall url name, In (url, name) (saved (document (pageAfter catSaved))) ->
                    exists i, In (Settle i (Resolved url)) catSaved).
Proof.
  apply (images_come_from_client catSaved (pageAfter catSaved)). reflexivity.
Defined.

(** X19. Every error message the page holds is one of three: the
    validation message, the fallback message, or the message of an
    [Error] that the Generation Client threw for a request that settled
    before. *)
Theorem errors_have_a_source (ls : list Label) (p : Page) (m : string) :
  steps initialPage ls = Some p ->
  error (live p) = Some m ->
  m = "Please write a prompt or upload an image." \/
  m = "An unknown error occurred." \/
  exists i, In (Settle i (Thrown (JsError m))) ls.
Proof.
  intro Hp. revert m.
  refine (proj2 (reach_ind
    (fun ls p => forall m, error (live p) = Some m ->
       m = "Please write a prompt or upload an image." \/
       m = "An unknown error occurred." \/
       exists i, In (Settle i (Thrown (JsError m))) ls)
    _ _ ls p Hp)).
  - simpl. discriminate.
  - clear. intros ls p l p' _ HI IH HM m.
    assert (Hold : error (live p) = Some m ->
                   m = "Please write a prompt or upload an image." \/
                   m = "An unknown error occurred." \/
                   exists i, In (Settle i (Thrown (JsError m))) (ls ++ [l])).
    { intro H. destruct (IH m H) as [E|[E|[i Hi]]]; auto.
      right. right. exists i. apply in_or_app. now left. }
    destruct HM as [e s' (_ & _ & _ & Qe) | e r k _ _ _ | now d _ _
                   | c k settled _ _]; simpl.
    + destruct Qe as [E | [_ [E|E]]]; rewrite E.
      * exact Hold.
      * discriminate.
      * intro H. injection H as <-. now left.
    + discriminate.
    + exact Hold.
    + destruct settled as [u|err]; simpl; [exact Hold|].
      destruct err; simpl; intro H; injection H as <-; auto.
      right. right. exists 0. apply in_or_app. right. now left.
Qed.

Lemma errors_have_a_source_witness :
  "Quota exceeded" = "Please write a prompt or upload an image." \/
  "Quota exceeded" = "An unknown error occurred." \/
  exists i, In (Settle i (Thrown (JsError "Quota exceeded")))
               (catRequested ++ [Settle 0 (Thrown (JsError "Quota exceeded"))]).
Proof.
  apply (errors_have_a_source
           (catRequested ++ [Settle 0 (Thrown (JsError "Quota exceeded"))])
           (pageAfter (catRequested ++ [Settle 0 (Thrown (JsError "Quota exceeded"))]))
           "Quota exceeded"); reflexivity.
Defined.

(** X20. Once a request has been made, [isTextOnlyResult] always tells
    whether the latest call went without an image, whatever the user has
    uploaded or removed since: the retry selector belongs to the request
    that produced the result, not to the current inputs. *)
Theorem text_only_flag_tracks_last_call (p : Page) (before : list ClientCall)
        (call : ClientCall) :
  reachable p -> sent p = before ++ [call] ->
  isTextOnlyResult (live p) = negb (present (call_image call)).
Proof.
  intros [ls Hp]. revert before call.
  refine (proj2 (reach_ind
    (fun _ p => forall before call, sent p = before ++ [call] ->
       isTextOnlyResult (live p) = negb (present (call_image call)))
    _ _ ls p Hp)).
  - simpl. intros before call H. destruct before; discriminate.
  - clear. intros ls p l p' _ HI IH HM before call.
    destruct HM as [e s' (_ & Qt & _) | e r k _ _ _ | now d _ _
                   | c k settled _ _]; simpl.
    + rewrite Qt. apply IH.
    + intro H. apply app_inj_tail in H. destruct H as [_ <-]. reflexivity.
    + apply IH.
    + apply IH.
Qed.

Lemma text_only_flag_tracks_last_call_witness :
  isTextOnlyResult
    (live (pageAfter (catShown ++ [User (UploadImage (Some photo))]))) =
  negb (present (call_image (requestOf (live (pageAfter catTyped)) None))).
Proof.
  apply (text_only_flag_tracks_last_call
           (pageAfter (catShown ++ [User (UploadImage (Some photo))]))
           [] (requestOf (live (pageAfter catTyped)) None)).
  - apply reachable_pageAfter. discriminate.
  - reflexivity.
Defined.

(** X21. Playing a click against a client in one go, as [submit] does,
    is what happens on the page when the click is made and its request
    then settles the way that client answers, with nothing in between:
    the same final state and the same calls. *)
Theorem stepwise_agrees_with_submit
        (generate : string -> AspectRatio -> option File -> Outcome) (p : Page) :
  reachable p -> generateDisabled (live p) = false ->
  exists p1 p2,
    step p (User ClickGenerate) = Some p1 /\
    step p1 (Settle 0 (settle generate (requestOf (live p) None))) = Some p2 /\
    live p2 = ui (submit generate None (mkWorld (live p) (sent p))) /\
    sent p2 = calls (submit generate None (mkWorld (live p) (sent p))).
Proof.
  intros Hr Hd. apply reachable_Inv in Hr.
  pose proof Hd as Hg. unfold generateDisabled in Hg.
  apply orb_false_iff in Hg. destruct Hg as [Hl Hb]. apply filled_guard in Hb.
  pose proof (inv_count p Hr) as Hc. rewrite Hl in Hc.
  destruct (inflight p) eqn:Hin; [|discriminate].
  destruct (handleGenerateClick_accepted (live p) None (live p) Hb Hl)
    as (k & E & Hk).
  unfold step at 1. simpl. rewrite Hd. simpl. rewrite E. simpl. rewrite Hin.
  eexists. eexists. split; [reflexivity|].
  simpl. rewrite Hk. simpl. split; [reflexivity|].
  rewrite submit_accepted by assumption. simpl. auto.
Qed.

Lemma stepwise_agrees_with_submit_witness :
  exists p1 p2,
    step (pageAfter catTyped) (User ClickGenerate) = Some p1 /\
    step p1 (Settle 0 (settle (resolving referenceUrl)
                              (requestOf (live (pageAfter catTyped)) None)))
      = Some p2 /\
    live p2 = ui (submit (resolving referenceUrl) None
                         (mkWorld (live (pageAfter catTyped))
                                  (sent (pageAfter catTyped)))) /\
    sent p2 = calls (submit (resolving referenceUrl) None
                            (mkWorld (live (pageAfter catTyped))
                                     (sent (pageAfter catTyped)))).
Proof.
  apply (stepwise_agrees_with_submit (resolving referenceUrl) (pageAfter catTyped)).
  - apply reachable_pageAfter. discriminate.
  - reflexivity.
Defined.
